(** * ChatTextAreaAutocompleteTelemetry

    A shallow embedding of
    [src/services/ghost/chat-autocomplete/ChatTextAreaAutocompleteTelemetry.ts].

    JavaScript values are modelled with a heap of objects: an object is an
    ordered list of own (enumerable, data) properties, and a value is either
    a primitive or a reference into the heap.  The class has no fields, so
    an instance is an object with no own properties.  The external
    [TelemetryService] singleton is an environment record read by the code:
    whether an instance exists, and how the instance's [captureEvent]
    behaves (it may return normally or throw).  [console.log] appends to an
    output trace, and so does every call that reaches the sink. *)

From Stdlib Require Import String ZArith List.
From stdpp Require Import base gmap strings list.
Import ListNotations.
Open Scope string_scope.
Open Scope list_scope.

(** ** JavaScript values and objects *)

Abbreviation loc := N (only parsing).

(** Numbers are passed through unchanged by the code; they are modelled as
    integers. *)
Inductive jsval :=
| JUndef
| JNull
| JBool (b : bool)
| JNum (n : Z)
| JStr (s : string)
| JRef (l : loc).

(** Own properties in insertion order. *)
Definition jsobj := list (string * jsval).

Fixpoint obj_lookup (o : jsobj) (k : string) : option jsval :=
  match o with
  | [] => None
  | (k', v) :: o' => if String.eqb k k' then Some v else obj_lookup o' k
  end.

(** [o.k]: a missing own property reads as [undefined]. *)
Definition obj_get (o : jsobj) (k : string) : jsval :=
  match obj_lookup o k with Some v => v | None => JUndef end.

(** CreateDataProperty: an existing key keeps its position and gets the new
    value; a new key is appended. *)
Fixpoint obj_set (o : jsobj) (k : string) (v : jsval) : jsobj :=
  match o with
  | [] => [(k, v)]
  | (k', v') :: o' =>
      if String.eqb k k' then (k', v) :: o' else (k', v') :: obj_set o' k v
  end.

(** An object literal [{ k1: v1, ..., ...src, ... }] is evaluated left to
    right into a fresh object; [obj_define_all o ps] defines [ps] in order. *)
Fixpoint obj_define_all (o : jsobj) (ps : list (string * jsval)) : jsobj :=
  match ps with
  | [] => o
  | (k, v) :: ps' => obj_define_all (obj_set o k v) ps'
  end.

Definition obj_literal (ps : list (string * jsval)) : jsobj :=
  obj_define_all [] ps.

(** [{ ...src }] copies the own enumerable properties of [src] in order. *)
Definition obj_spread (o src : jsobj) : jsobj := obj_define_all o src.

Definition obj_keys (o : jsobj) : list string := map fst o.

(** ** The heap *)

Abbreviation heap := (gmap loc jsobj).

(** References handed to the code always denote allocated objects; an
    unallocated location reads as an object with no own properties. *)
Definition heap_read (h : heap) (l : loc) : jsobj :=
  match h !! l with Some o => o | None => [] end.

Definition heap_alloc (h : heap) (o : jsobj) : loc * heap :=
  let l := fresh (dom h) in (l, <[l := o]> h).

(** ** External collaborators: [@roo-code/types] and [@roo-code/telemetry] *)

(** The members of [TelemetryEventName] used by this class. *)
Inductive TelemetryEventName :=
| CHAT_AUTOCOMPLETE_SUGGESTION_REQUESTED
| CHAT_AUTOCOMPLETE_LLM_REQUEST_COMPLETED
| CHAT_AUTOCOMPLETE_LLM_REQUEST_FAILED
| CHAT_AUTOCOMPLETE_SUGGESTION_RETURNED
| CHAT_AUTOCOMPLETE_SUGGESTION_FILTERED
| CHAT_AUTOCOMPLETE_SUGGESTION_ACCEPTED
| CHAT_AUTOCOMPLETE_SUGGESTION_DISMISSED.

(** The state of the [TelemetryService] singleton as seen by one call:
    [hasInstance()], and the outcome of [instance.captureEvent(event, props)]
    ([None]: returns normally; [Some e]: throws [e]). *)
Record TelemetryService := mkTelemetryService {
  hasInstance : bool;
  instance_captureEvent : TelemetryEventName -> option jsobj -> option jsval
}.

(** Observable effects, in order. *)
Inductive effect :=
| SinkCaptureEvent (event : TelemetryEventName) (properties : option jsobj)
| ConsoleLog (template : string) (event : TelemetryEventName)
             (properties : option jsobj).

Definition log_template : string := "Chat Autocomplete Telemetry event: ".

(** ** A reader/state/exception monad *)

Inductive outcome (A : Type) :=
| Normal (a : A)
| Throw (e : jsval).
Arguments Normal {A} a.
Arguments Throw {A} e.

Record st := mkSt { st_heap : heap; st_trace : list effect }.

Definition M (A : Type) := TelemetryService -> st -> st * outcome A.

Definition ret {A} (a : A) : M A := fun _ s => (s, Normal a).

Definition bind {A B} (m : M A) (f : A -> M B) : M B :=
  fun w s =>
    match m w s with
    | (s', Normal a) => f a w s'
    | (s', Throw e) => (s', Throw e)
    end.

Notation "'let!' x := m 'in' k" := (bind m (fun x => k))
  (at level 200, x name, m at level 100, k at level 200).
Notation "'do!' m 'in' k" := (bind m (fun _ => k))
  (at level 200, m at level 100, k at level 200).

Definition read (l : loc) : M jsobj :=
  fun _ s => (s, Normal (heap_read (st_heap s) l)).

Definition alloc (o : jsobj) : M loc :=
  fun _ s =>
    let '(l, h') := heap_alloc (st_heap s) o in
    (mkSt h' (st_trace s), Normal l).

Definition emit (e : effect) : M unit :=
  fun _ s => (mkSt (st_heap s) (st_trace s ++ [e]), Normal tt).

Definition TelemetryService_hasInstance : M bool :=
  fun w s => (s, Normal (hasInstance w)).

(** [TelemetryService.instance.captureEvent(event, properties)]: the call is
    made (and recorded), then it returns or throws as the sink decides. *)
Definition TelemetryService_instance_captureEvent
    (event : TelemetryEventName) (properties : option jsobj) : M unit :=
  fun w s =>
    let s' := mkSt (st_heap s) (st_trace s ++ [SinkCaptureEvent event properties]) in
    match instance_captureEvent w event properties with
    | None => (s', Normal tt)
    | Some e => (s', Throw e)
    end.

Definition console_log (event : TelemetryEventName) (properties : option jsobj)
    : M unit :=
  emit (ConsoleLog log_template event properties).

(** ** The class [ChatTextAreaAutocompleteTelemetry] *)

(** The string-literal union types of the parameters. *)
Inductive FilterReason :=
| empty_response | unwanted_pattern | too_short | model_not_loaded
| no_credentials.

Definition FilterReason_str (r : FilterReason) : string :=
  match r with
  | empty_response => "empty_response"
  | unwanted_pattern => "unwanted_pattern"
  | too_short => "too_short"
  | model_not_loaded => "model_not_loaded"
  | no_credentials => "no_credentials"
  end.

Inductive DismissReason :=
| escape | continued_typing | clicked_away | timeout.

Definition DismissReason_str (r : DismissReason) : string :=
  match r with
  | escape => "escape"
  | continued_typing => "continued_typing"
  | clicked_away => "clicked_away"
  | timeout => "timeout"
  end.

(** [constructor() {}]: the instance has no own properties.  Methods take
    the instance ([this]) as a reference. *)
Definition constructor : M loc := alloc [].

(** [private captureEvent(event, properties?)]; [properties] is [undefined]
    ([None]) or a reference to an object. *)
Definition captureEvent (this : loc) (event : TelemetryEventName)
    (properties : option loc) : M unit :=
  let! has := TelemetryService_hasInstance in
  if has then
    match properties with
    | Some l =>
        let! p := read l in
        do! TelemetryService_instance_captureEvent event (Some p) in
        console_log event (Some p)
    | None =>
        do! TelemetryService_instance_captureEvent event None in
        console_log event None
    end
  else ret tt.

Definition captureSuggestionRequested (this : loc) (context : loc)
    (userTextLength : Z) : M unit :=
  let! c := read context in
  let! p := alloc (obj_literal [
      ("modelId", obj_get c "modelId");
      ("provider", obj_get c "provider");
      ("usedFim", obj_get c "usedFim");
      ("hasVisibleCodeContext", obj_get c "hasVisibleCodeContext");
      ("hasClipboardContext", obj_get c "hasClipboardContext");
      ("userTextLength", JNum userTextLength)]) in
  captureEvent this CHAT_AUTOCOMPLETE_SUGGESTION_REQUESTED (Some p).

(** [{ ...properties, modelId, provider, usedFim }]. *)
Definition captureLlmRequestCompleted (this : loc) (properties : loc)
    (context : loc) : M unit :=
  let! q := read properties in
  let! c := read context in
  let! p := alloc (obj_define_all (obj_spread [] q) [
      ("modelId", obj_get c "modelId");
      ("provider", obj_get c "provider");
      ("usedFim", obj_get c "usedFim")]) in
  captureEvent this CHAT_AUTOCOMPLETE_LLM_REQUEST_COMPLETED (Some p).

Definition captureLlmRequestFailed (this : loc) (properties : loc)
    (context : loc) : M unit :=
  let! q := read properties in
  let! c := read context in
  let! p := alloc (obj_define_all (obj_spread [] q) [
      ("modelId", obj_get c "modelId");
      ("provider", obj_get c "provider");
      ("usedFim", obj_get c "usedFim")]) in
  captureEvent this CHAT_AUTOCOMPLETE_LLM_REQUEST_FAILED (Some p).

Definition captureSuggestionReturned (this : loc) (context : loc)
    (suggestionLength : Z) : M unit :=
  let! c := read context in
  let! p := alloc (obj_literal [
      ("modelId", obj_get c "modelId");
      ("provider", obj_get c "provider");
      ("usedFim", obj_get c "usedFim");
      ("suggestionLength", JNum suggestionLength)]) in
  captureEvent this CHAT_AUTOCOMPLETE_SUGGESTION_RETURNED (Some p).

Definition captureSuggestionFiltered (this : loc) (reason : FilterReason)
    (context : loc) : M unit :=
  let! c := read context in
  let! p := alloc (obj_literal [
      ("reason", JStr (FilterReason_str reason));
      ("modelId", obj_get c "modelId");
      ("provider", obj_get c "provider");
      ("usedFim", obj_get c "usedFim")]) in
  captureEvent this CHAT_AUTOCOMPLETE_SUGGESTION_FILTERED (Some p).

Definition captureSuggestionAccepted (this : loc) (suggestionLength : Z)
    : M unit :=
  let! p := alloc (obj_literal [("suggestionLength", JNum suggestionLength)]) in
  captureEvent this CHAT_AUTOCOMPLETE_SUGGESTION_ACCEPTED (Some p).

Definition captureSuggestionDismissed (this : loc) (dismissReason : DismissReason)
    : M unit :=
  let! p := alloc (obj_literal [("dismissReason", JStr (DismissReason_str dismissReason))]) in
  captureEvent this CHAT_AUTOCOMPLETE_SUGGESTION_DISMISSED (Some p).

(** ** The seven public operations as one type of call *)

Inductive call :=
| CSuggestionRequested (context : loc) (userTextLength : Z)
| CLlmRequestCompleted (properties : loc) (context : loc)
| CLlmRequestFailed (properties : loc) (context : loc)
| CSuggestionReturned (context : loc) (suggestionLength : Z)
| CSuggestionFiltered (reason : FilterReason) (context : loc)
| CSuggestionAccepted (suggestionLength : Z)
| CSuggestionDismissed (dismissReason : DismissReason).

Definition run_call (this : loc) (c : call) : M unit :=
  match c with
  | CSuggestionRequested ctx n => captureSuggestionRequested this ctx n
  | CLlmRequestCompleted p ctx => captureLlmRequestCompleted this p ctx
  | CLlmRequestFailed p ctx => captureLlmRequestFailed this p ctx
  | CSuggestionReturned ctx n => captureSuggestionReturned this ctx n
  | CSuggestionFiltered r ctx => captureSuggestionFiltered this r ctx
  | CSuggestionAccepted n => captureSuggestionAccepted this n
  | CSuggestionDismissed r => captureSuggestionDismissed this r
  end.

(** A sequence of statements: an exception ends the sequence. *)
Fixpoint run_calls (this : loc) (cs : list call) : M unit :=
  match cs with
  | [] => ret tt
  | c :: cs' => do! run_call this c in run_calls this cs'
  end.

(** ** Helpers read off the code: the event and the object each call builds *)

Definition call_event (c : call) : TelemetryEventName :=
  match c with
  | CSuggestionRequested _ _ => CHAT_AUTOCOMPLETE_SUGGESTION_REQUESTED
  | CLlmRequestCompleted _ _ => CHAT_AUTOCOMPLETE_LLM_REQUEST_COMPLETED
  | CLlmRequestFailed _ _ => CHAT_AUTOCOMPLETE_LLM_REQUEST_FAILED
  | CSuggestionReturned _ _ => CHAT_AUTOCOMPLETE_SUGGESTION_RETURNED
  | CSuggestionFiltered _ _ => CHAT_AUTOCOMPLETE_SUGGESTION_FILTERED
  | CSuggestionAccepted _ => CHAT_AUTOCOMPLETE_SUGGESTION_ACCEPTED
  | CSuggestionDismissed _ => CHAT_AUTOCOMPLETE_SUGGESTION_DISMISSED
  end.

Definition context_fields (c : jsobj) : list (string * jsval) :=
  [("modelId", obj_get c "modelId");
   ("provider", obj_get c "provider");
   ("usedFim", obj_get c "usedFim")].

Definition call_object (h : heap) (c : call) : jsobj :=
  match c with
  | CSuggestionRequested ctx n =>
      let c := heap_read h ctx in
      obj_literal [
        ("modelId", obj_get c "modelId");
        ("provider", obj_get c "provider");
        ("usedFim", obj_get c "usedFim");
        ("hasVisibleCodeContext", obj_get c "hasVisibleCodeContext");
        ("hasClipboardContext", obj_get c "hasClipboardContext");
        ("userTextLength", JNum n)]
  | CLlmRequestCompleted p ctx | CLlmRequestFailed p ctx =>
      obj_define_all (obj_spread [] (heap_read h p)) (context_fields (heap_read h ctx))
  | CSuggestionReturned ctx n =>
      let c := heap_read h ctx in
      obj_literal [
        ("modelId", obj_get c "modelId");
        ("provider", obj_get c "provider");
        ("usedFim", obj_get c "usedFim");
        ("suggestionLength", JNum n)]
  | CSuggestionFiltered r ctx =>
      let c := heap_read h ctx in
      obj_literal [
        ("reason", JStr (FilterReason_str r));
        ("modelId", obj_get c "modelId");
        ("provider", obj_get c "provider");
        ("usedFim", obj_get c "usedFim")]
  | CSuggestionAccepted n => obj_literal [("suggestionLength", JNum n)]
  | CSuggestionDismissed r =>
      obj_literal [("dismissReason", JStr (DismissReason_str r))]
  end.

(** The locations a call reads: its context and its properties record. *)
Definition call_reads (c : call) : list loc :=
  match c with
  | CSuggestionRequested ctx _ | CSuggestionReturned ctx _
  | CSuggestionFiltered _ ctx => [ctx]
  | CLlmRequestCompleted p ctx | CLlmRequestFailed p ctx => [p; ctx]
  | CSuggestionAccepted _ | CSuggestionDismissed _ => []
  end.

Definition is_sink_event (e : effect) : bool :=
  match e with SinkCaptureEvent _ _ => true | ConsoleLog _ _ _ => false end.

(** Every object of a heap has distinct keys, as JavaScript objects do. *)
Definition wf_heap (h : heap) : Prop :=
  map_Forall (fun _ o => NoDup (obj_keys o)) h.

#[global] Instance wf_heap_dec (h : heap) : Decision (wf_heap h).
Proof. unfold wf_heap. apply _. Defined.

(** ** The table of public capture operations, as the spec documents it *)

Definition documented_event (c : call) : TelemetryEventName :=
  match c with
  | CSuggestionRequested _ _ => CHAT_AUTOCOMPLETE_SUGGESTION_REQUESTED
  | CLlmRequestCompleted _ _ => CHAT_AUTOCOMPLETE_LLM_REQUEST_COMPLETED
  | CLlmRequestFailed _ _ => CHAT_AUTOCOMPLETE_LLM_REQUEST_FAILED
  | CSuggestionReturned _ _ => CHAT_AUTOCOMPLETE_SUGGESTION_RETURNED
  | CSuggestionFiltered _ _ => CHAT_AUTOCOMPLETE_SUGGESTION_FILTERED
  | CSuggestionAccepted _ => CHAT_AUTOCOMPLETE_SUGGESTION_ACCEPTED
  | CSuggestionDismissed _ => CHAT_AUTOCOMPLETE_SUGGESTION_DISMISSED
  end.

(** The documented key set, and the value each documented key holds: the
    caller's parameter, or the field copied from the context; for the two
    LLM operations, every key of the caller's properties record merged with
    the context's [modelId], [provider] and [usedFim]. *)
Definition documented_lookup (h : heap) (c : call) (k : string) : option jsval :=
  let from_ctx (ctx : loc) (f : string) := obj_get (heap_read h ctx) f in
  match c with
  | CSuggestionRequested ctx n =>
      obj_lookup [("modelId", from_ctx ctx "modelId");
                  ("provider", from_ctx ctx "provider");
                  ("usedFim", from_ctx ctx "usedFim");
                  ("hasVisibleCodeContext", from_ctx ctx "hasVisibleCodeContext");
                  ("hasClipboardContext", from_ctx ctx "hasClipboardContext");
                  ("userTextLength", JNum n)] k
  | CLlmRequestCompleted p ctx | CLlmRequestFailed p ctx =>
      if decide (k ∈ ["modelId"; "provider"; "usedFim"]) then Some (from_ctx ctx k)
      else obj_lookup (heap_read h p) k
  | CSuggestionReturned ctx n =>
      obj_lookup [("modelId", from_ctx ctx "modelId");
                  ("provider", from_ctx ctx "provider");
                  ("usedFim", from_ctx ctx "usedFim");
                  ("suggestionLength", JNum n)] k
  | CSuggestionFiltered r ctx =>
      obj_lookup [("reason", JStr (FilterReason_str r));
                  ("modelId", from_ctx ctx "modelId");
                  ("provider", from_ctx ctx "provider");
                  ("usedFim", from_ctx ctx "usedFim")] k
  | CSuggestionAccepted n => obj_lookup [("suggestionLength", JNum n)] k
  | CSuggestionDismissed r =>
      obj_lookup [("dismissReason", JStr (DismissReason_str r))] k
  end.

(** ** Concrete inputs (the test suite's fixtures) *)

(** A sink that records every event and returns normally. *)
Definition test_service : TelemetryService :=
  mkTelemetryService true (fun _ _ => None).

(** A sink whose [captureEvent] throws. *)
Definition throwing_service : TelemetryService :=
  mkTelemetryService true (fun _ _ => Some (JStr "sink failure")).

Definition no_service : TelemetryService :=
  mkTelemetryService false (fun _ _ => None).

Definition mockContext : jsobj :=
  [("modelId", JStr "test-model"); ("provider", JStr "test-provider");
   ("usedFim", JBool true); ("hasVisibleCodeContext", JBool true);
   ("hasClipboardContext", JBool false)].

Definition minimalContext : jsobj :=
  [("usedFim", JBool false); ("hasVisibleCodeContext", JBool false);
   ("hasClipboardContext", JBool false)].

(** Location 0: the reporter; 1: [mockContext]; 2: [{ latencyMs: 150 }];
    3: [minimalContext]; 4: [{ latencyMs: 100, error: "Network timeout" }];
    5: a record that also carries [modelId] and [usedFim] at run time. *)
Definition test_heap : heap :=
  <[5%N := [("latencyMs", JNum 7); ("modelId", JStr "caller-model");
            ("usedFim", JStr "yes")]]>
  (<[4%N := [("latencyMs", JNum 100); ("error", JStr "Network timeout")]]>
  (<[3%N := minimalContext]>
  (<[2%N := [("latencyMs", JNum 150)]]>
  (<[1%N := mockContext]> {[0%N := []]})))).

(** The context a call copies fields from, if any. *)
Definition call_context (c : call) : option loc :=
  match c with
  | CSuggestionRequested ctx _ | CLlmRequestCompleted _ ctx
  | CLlmRequestFailed _ ctx | CSuggestionReturned ctx _
  | CSuggestionFiltered _ ctx => Some ctx
  | CSuggestionAccepted _ | CSuggestionDismissed _ => None
  end.

(** ** Value shapes *)

Definition is_scalar (v : jsval) : bool :=
  match v with JBool _ | JNum _ | JStr _ => true | _ => false end.

(** A scalar or [undefined]: not [null], not an object. *)
Definition is_flat_value (v : jsval) : bool :=
  match v with JUndef | JBool _ | JNum _ | JStr _ => true | _ => false end.

Definition is_bool (v : jsval) : bool :=
  match v with JBool _ => true | _ => false end.
Definition is_num (v : jsval) : bool :=
  match v with JNum _ => true | _ => false end.
Definition is_str (v : jsval) : bool :=
  match v with JStr _ => true | _ => false end.
Definition is_num_or_undef (v : jsval) : bool :=
  match v with JNum _ | JUndef => true | _ => false end.
Definition is_str_or_undef (v : jsval) : bool :=
  match v with JStr _ | JUndef => true | _ => false end.

(** [ChatAutocompleteContext]: [modelId?: string], [provider?: string] and
    three booleans. *)
Definition context_typed (c : jsobj) : bool :=
  is_str_or_undef (obj_get c "modelId") && is_str_or_undef (obj_get c "provider") &&
  is_bool (obj_get c "usedFim") && is_bool (obj_get c "hasVisibleCodeContext") &&
  is_bool (obj_get c "hasClipboardContext").

(** [{ latencyMs: number; inputTokens?: number; outputTokens?: number }]
    holding its declared keys only. *)
Definition completed_props_typed (q : jsobj) : bool :=
  is_num (obj_get q "latencyMs") &&
  forallb (fun kv =>
    if String.eqb kv.1 "latencyMs" then is_num kv.2
    else if String.eqb kv.1 "inputTokens" || String.eqb kv.1 "outputTokens"
    then is_num_or_undef kv.2 else false) q.

(** [{ latencyMs: number; error: string }] holding its declared keys only. *)
Definition failed_props_typed (q : jsobj) : bool :=
  is_num (obj_get q "latencyMs") && is_str (obj_get q "error") &&
  forallb (fun kv =>
    if String.eqb kv.1 "latencyMs" then is_num kv.2
    else if String.eqb kv.1 "error" then is_str kv.2 else false) q.

Definition call_typed (h : heap) (c : call) : bool :=
  match c with
  | CSuggestionRequested ctx _ | CSuggestionReturned ctx _
  | CSuggestionFiltered _ ctx => context_typed (heap_read h ctx)
  | CLlmRequestCompleted p ctx =>
      completed_props_typed (heap_read h p) && context_typed (heap_read h ctx)
  | CLlmRequestFailed p ctx =>
      failed_props_typed (heap_read h p) && context_typed (heap_read h ctx)
  | CSuggestionAccepted _ | CSuggestionDismissed _ => true
  end.

(** The keys every call of an operation forwards, and the optional ones. *)
Definition required_keys (c : call) : list string :=
  match c with
  | CSuggestionRequested _ _ =>
      ["modelId"; "provider"; "usedFim"; "hasVisibleCodeContext";
       "hasClipboardContext"; "userTextLength"]
  | CLlmRequestCompleted _ _ => ["latencyMs"; "modelId"; "provider"; "usedFim"]
  | CLlmRequestFailed _ _ => ["latencyMs"; "error"; "modelId"; "provider"; "usedFim"]
  | CSuggestionReturned _ _ => ["modelId"; "provider"; "usedFim"; "suggestionLength"]
  | CSuggestionFiltered _ _ => ["reason"; "modelId"; "provider"; "usedFim"]
  | CSuggestionAccepted _ => ["suggestionLength"]
  | CSuggestionDismissed _ => ["dismissReason"]
  end.

Definition optional_keys (c : call) : list string :=
  match c with
  | CLlmRequestCompleted _ _ => ["inputTokens"; "outputTokens"]
  | _ => []
  end.

#[global] Instance jsval_eq_dec : EqDecision jsval.
Proof. solve_decision. Defined.

Definition other_heap : heap :=
  <[2%N := [("latencyMs", JNum 150)]]> {[1%N := mockContext]}.

(** ** Lemmas on objects *)

Lemma obj_lookup_set (o : jsobj) (k k' : string) (v : jsval) :
  obj_lookup (obj_set o k v) k' =
  if String.eqb k' k then Some v else obj_lookup o k'.
Proof.
  induction o as [|[k0 v0] o IH]; simpl.
  - reflexivity.
  - destruct (String.eqb_spec k k0) as [->|Hne]; simpl.
    + destruct (String.eqb k' k0); reflexivity.
    + rewrite IH. destruct (String.eqb_spec k' k0) as [->|Hne'].
      * destruct (String.eqb_spec k0 k); [congruence|reflexivity].
      * reflexivity.
Qed.

Lemma obj_keys_set_elem (o : jsobj) (k k' : string) (v : jsval) :
  k' ∈ obj_keys (obj_set o k v) <-> k' = k \/ k' ∈ obj_keys o.
Proof.
  induction o as [|[k0 v0] o IH]; simpl.
  - unfold obj_keys; simpl. set_solver.
  - destruct (String.eqb_spec k k0) as [->|Hne]; unfold obj_keys in *; simpl.
    + set_solver.
    + rewrite !elem_of_cons, IH. tauto.
Qed.

Lemma obj_set_nodup (o : jsobj) (k : string) (v : jsval) :
  NoDup (obj_keys o) -> NoDup (obj_keys (obj_set o k v)).
Proof.
  induction o as [|[k0 v0] o IH]; simpl; intros Hnd.
  - unfold obj_keys; simpl. constructor; [set_solver|constructor].
  - unfold obj_keys in *; simpl in *. apply NoDup_cons in Hnd as [Hn Hnd].
    destruct (String.eqb_spec k k0) as [->|Hne]; simpl.
    + constructor; assumption.
    + constructor; [|apply IH; assumption].
      change (map fst (obj_set o k v)) with (obj_keys (obj_set o k v)).
      rewrite obj_keys_set_elem. intros [->|Hin]; [congruence|contradiction].
Qed.

Lemma obj_define_all_nodup (o : jsobj) (ps : list (string * jsval)) :
  NoDup (obj_keys o) -> NoDup (obj_keys (obj_define_all o ps)).
Proof.
  revert o; induction ps as [|[k v] ps IH]; simpl; intros o Hnd.
  - assumption.
  - apply IH, obj_set_nodup, Hnd.
Qed.

Lemma obj_keys_define_all_elem (o : jsobj) (ps : list (string * jsval)) (k : string) :
  k ∈ obj_keys (obj_define_all o ps) <-> k ∈ obj_keys o \/ k ∈ map fst ps.
Proof.
  revert o; induction ps as [|[k0 v0] ps IH]; simpl; intros o.
  - set_solver.
  - rewrite IH, obj_keys_set_elem, elem_of_cons. tauto.
Qed.

Lemma obj_lookup_app (o1 o2 : jsobj) (k : string) :
  obj_lookup (o1 ++ o2)%list k =
  match obj_lookup o1 k with Some v => Some v | None => obj_lookup o2 k end.
Proof.
  induction o1 as [|[k0 v0] o1 IH]; simpl; [reflexivity|].
  destruct (String.eqb k k0); [reflexivity|exact IH].
Qed.

Lemma obj_lookup_define_all (o : jsobj) (ps : list (string * jsval)) (k : string) :
  obj_lookup (obj_define_all o ps) k =
  match obj_lookup (rev ps) k with Some v => Some v | None => obj_lookup o k end.
Proof.
  revert o; induction ps as [|[k0 v0] ps IH]; simpl; intros o; [reflexivity|].
  rewrite IH, obj_lookup_app, obj_lookup_set; simpl.
  destruct (obj_lookup (rev ps) k); [reflexivity|].
  destruct (String.eqb k k0); reflexivity.
Qed.

Lemma obj_lookup_None (o : jsobj) (k : string) :
  obj_lookup o k = None <-> k ∉ obj_keys o.
Proof.
  induction o as [|[k0 v0] o IH]; unfold obj_keys in *; simpl.
  - set_solver.
  - rewrite elem_of_cons. destruct (String.eqb_spec k k0) as [->|Hne].
    + split; [discriminate|]. intros H. exfalso. apply H. left. reflexivity.
    + rewrite IH. tauto.
Qed.

Lemma obj_lookup_rev (o : jsobj) (k : string) :
  NoDup (obj_keys o) -> obj_lookup (rev o) k = obj_lookup o k.
Proof.
  induction o as [|[k0 v0] o IH]; simpl; intros Hnd; [reflexivity|].
  unfold obj_keys in Hnd; simpl in Hnd. apply NoDup_cons in Hnd as [Hn Hnd].
  rewrite obj_lookup_app, IH by exact Hnd; simpl.
  destruct (String.eqb_spec k k0) as [->|Hne].
  - assert (obj_lookup o k0 = None) as -> by (apply obj_lookup_None; exact Hn).
    reflexivity.
  - destruct (obj_lookup o k); reflexivity.
Qed.

(** ** Running the code *)

Lemma run_call_unfold (w : TelemetryService) (this : loc) (c : call)
    (h : heap) (tr : list effect) :
  run_call this c w (mkSt h tr) =
  captureEvent this (call_event c) (Some (fresh (dom h))) w
    (mkSt (<[fresh (dom h) := call_object h c]> h) tr).
Proof. destruct c; reflexivity. Qed.

Lemma heap_read_alloc (h : heap) (o : jsobj) :
  heap_read (<[fresh (dom h) := o]> h) (fresh (dom h)) = o.
Proof. unfold heap_read. rewrite lookup_insert_eq. reflexivity. Qed.

Lemma fresh_not_in_dom (h : heap) (l : loc) :
  l ∈ dom h -> l <> fresh (dom h).
Proof. intros Hl ->. apply (is_fresh (dom h)), Hl. Qed.

(** The dispatch routine, case by case. *)
Lemma captureEvent_eq (w : TelemetryService) (this : loc) (event : TelemetryEventName)
    (properties : option loc) (h : heap) (tr : list effect) :
  captureEvent this event properties w (mkSt h tr) =
  let p := option_map (heap_read h) properties in
  if hasInstance w then
    match instance_captureEvent w event p with
    | None => (mkSt h (tr ++ [SinkCaptureEvent event p; ConsoleLog log_template event p]),
               Normal tt)
    | Some e => (mkSt h (tr ++ [SinkCaptureEvent event p]), Throw e)
    end
  else (mkSt h tr, Normal tt).
Proof.
  unfold captureEvent, bind, TelemetryService_hasInstance, ret.
  destruct (hasInstance w); [|reflexivity].
  destruct properties as [l|]; simpl;
    unfold TelemetryService_instance_captureEvent, console_log, emit; simpl;
    destruct (instance_captureEvent w _ _); simpl;
    rewrite <- ?app_assoc; reflexivity.
Qed.

Lemma run_call_eq (w : TelemetryService) (this : loc) (c : call)
    (h : heap) (tr : list effect) :
  let h' := <[fresh (dom h) := call_object h c]> h in
  let m := Some (call_object h c) in
  run_call this c w (mkSt h tr) =
  if hasInstance w then
    match instance_captureEvent w (call_event c) m with
    | None => (mkSt h' (tr ++ [SinkCaptureEvent (call_event c) m;
                               ConsoleLog log_template (call_event c) m]),
               Normal tt)
    | Some e => (mkSt h' (tr ++ [SinkCaptureEvent (call_event c) m]), Throw e)
    end
  else (mkSt h' tr, Normal tt).
Proof.
  simpl. rewrite run_call_unfold, captureEvent_eq. simpl.
  rewrite heap_read_alloc. reflexivity.
Qed.

Lemma documented_event_eq (c : call) : documented_event c = call_event c.
Proof. destruct c; reflexivity. Qed.

Lemma wf_heap_read (h : heap) (l : loc) :
  wf_heap h -> NoDup (obj_keys (heap_read h l)).
Proof.
  intros Hwf. unfold heap_read. destruct (h !! l) as [o|] eqn:E.
  - exact (Hwf l o E).
  - constructor.
Qed.

Lemma llm_object_lookup (q cx : jsobj) (k : string) :
  NoDup (obj_keys q) ->
  obj_lookup (obj_define_all (obj_spread [] q) (context_fields cx)) k =
  if decide (k ∈ ["modelId"; "provider"; "usedFim"]) then Some (obj_get cx k)
  else obj_lookup q k.
Proof.
  intros Hnd. rewrite obj_lookup_define_all. unfold obj_spread.
  rewrite (obj_lookup_define_all [] q), (obj_lookup_rev q k Hnd).
  destruct (decide (k ∈ ["modelId"; "provider"; "usedFim"])) as [Hin|Hnin].
  - rewrite !elem_of_cons, elem_of_nil in Hin.
    destruct Hin as [->|[->|[->|[]]]]; reflexivity.
  - assert (obj_lookup (rev (context_fields cx)) k = None) as ->.
    { apply obj_lookup_None. unfold obj_keys, context_fields; simpl. set_solver. }
    destruct (obj_lookup q k); reflexivity.
Qed.

Lemma call_object_documented (h : heap) (c : call) :
  wf_heap h ->
  NoDup (obj_keys (call_object h c)) /\
  forall k, obj_lookup (call_object h c) k = documented_lookup h c k.
Proof.
  intros Hwf.
  destruct c as [ctx n|p ctx|p ctx|ctx n|r ctx|n|r];
    try (simpl; split; [unfold obj_keys; simpl; repeat constructor; set_solver
                       | reflexivity]);
    cbn [call_object documented_lookup]; split;
    try (apply obj_define_all_nodup, obj_define_all_nodup; constructor);
    intros k; apply llm_object_lookup, wf_heap_read, Hwf.
Qed.

Lemma run_call_forwards (w : TelemetryService) (this : loc) (c : call)
    (h : heap) (tr : list effect) :
  hasInstance w = true ->
  exists rest,
    st_trace (fst (run_call this c w (mkSt h tr))) =
      tr ++ SinkCaptureEvent (call_event c) (Some (call_object h c)) :: rest /\
    Forall (fun e => is_sink_event e = false) rest.
Proof.
  intros Hw. rewrite run_call_eq, Hw. simpl.
  destruct (instance_captureEvent w _ _); simpl.
  - exists []. split; [reflexivity|constructor].
  - eexists. split; [reflexivity|repeat constructor].
Qed.

Lemma call_object_context_field (h : heap) (c : call) (ctx : loc) (f : string) :
  call_context c = Some ctx -> f ∈ ["modelId"; "provider"; "usedFim"] ->
  obj_lookup (call_object h c) f = Some (obj_get (heap_read h ctx) f).
Proof.
  intros Hc Hf. rewrite !elem_of_cons, elem_of_nil in Hf.
  destruct c; simpl in Hc; inversion Hc; subst; simpl;
    try (destruct Hf as [->|[->|[->|[]]]]; reflexivity);
    destruct Hf as [->|[->|[->|[]]]]; rewrite !obj_lookup_set; reflexivity.
Qed.

Lemma obj_set_Forall (P : string * jsval -> Prop) (o : jsobj) (k : string) (v : jsval) :
  Forall P o -> P (k, v) -> Forall P (obj_set o k v).
Proof.
  induction o as [|[k0 v0] o IH]; simpl; intros Ho Hkv.
  - constructor; [exact Hkv|constructor].
  - apply Forall_cons in Ho as [H0 Ho].
    destruct (String.eqb_spec k k0) as [->|Hne].
    + constructor; assumption.
    + constructor; [exact H0|apply IH; assumption].
Qed.

Lemma obj_define_all_Forall (P : string * jsval -> Prop) (o ps : jsobj) :
  Forall P o -> Forall P ps -> Forall P (obj_define_all o ps).
Proof.
  revert o; induction ps as [|[k v] ps IH]; simpl; intros o Ho Hps; [exact Ho|].
  apply Forall_cons in Hps as [Hkv Hps].
  apply IH; [apply obj_set_Forall|]; assumption.
Qed.

Lemma obj_get_in_keys (o : jsobj) (k : string) :
  obj_get o k <> JUndef -> k ∈ obj_keys o.
Proof.
  unfold obj_get. intros H.
  destruct (decide (k ∈ obj_keys o)) as [Hin|Hnin]; [exact Hin|].
  apply obj_lookup_None in Hnin. rewrite Hnin in H. congruence.
Qed.

Lemma forallb_keys (f : string * jsval -> bool) (o : jsobj) (k : string) :
  forallb f o = true -> k ∈ obj_keys o -> exists v, f (k, v) = true.
Proof.
  intros Hf Hk. unfold obj_keys in Hk. apply list_elem_of_In, in_map_iff in Hk.
  destruct Hk as [[k' v] [Hk' Hin]]. simpl in Hk'. subst k'.
  exists v. rewrite forallb_forall in Hf. apply Hf, Hin.
Qed.

Lemma flat_of_str_or_undef (v : jsval) : is_str_or_undef v = true -> is_flat_value v = true.
Proof. destruct v; simpl; congruence. Qed.

Lemma flat_of_bool (v : jsval) : is_bool v = true -> is_flat_value v = true.
Proof. destruct v; simpl; congruence. Qed.

Lemma context_typed_fields (c : jsobj) :
  context_typed c = true ->
  is_flat_value (obj_get c "modelId") = true /\ is_flat_value (obj_get c "provider") = true /\
  is_flat_value (obj_get c "usedFim") = true /\
  is_flat_value (obj_get c "hasVisibleCodeContext") = true /\
  is_flat_value (obj_get c "hasClipboardContext") = true.
Proof.
  unfold context_typed. intros H. repeat rewrite andb_true_iff in H.
  destruct H as [[[[H1 H2] H3] H4] H5].
  repeat split; auto using flat_of_str_or_undef, flat_of_bool.
Qed.

Lemma context_fields_flat (c : jsobj) :
  context_typed c = true ->
  Forall (fun kv => is_flat_value kv.2 = true) (context_fields c).
Proof.
  intros H. apply context_typed_fields in H as (H1 & H2 & H3 & _).
  repeat constructor; assumption.
Qed.

Lemma completed_props_flat (q : jsobj) :
  completed_props_typed q = true ->
  Forall (fun kv => is_flat_value kv.2 = true) q /\
  "latencyMs" ∈ obj_keys q /\
  (forall k, k ∈ obj_keys q -> k ∈ ["latencyMs"; "inputTokens"; "outputTokens"]).
Proof.
  unfold completed_props_typed. intros H. apply andb_true_iff in H as [Hl Hall].
  split; [|split].
  - apply Forall_forall. intros [k v] Hin. apply list_elem_of_In in Hin.
    rewrite forallb_forall in Hall.
    specialize (Hall (k, v) Hin). simpl in *.
    destruct (String.eqb k "latencyMs"); [destruct v; simpl in *; congruence|].
    destruct (String.eqb k "inputTokens" || String.eqb k "outputTokens");
      [destruct v; simpl in *; congruence|discriminate].
  - apply obj_get_in_keys. destruct (obj_get q "latencyMs"); simpl in *; congruence.
  - intros k Hk. destruct (forallb_keys _ q k Hall Hk) as [v Hv]; simpl in Hv.
    destruct (String.eqb_spec k "latencyMs") as [->|]; [set_solver|].
    destruct (String.eqb_spec k "inputTokens") as [->|]; [set_solver|].
    destruct (String.eqb_spec k "outputTokens") as [->|]; [set_solver|].
    discriminate.
Qed.

Lemma failed_props_flat (q : jsobj) :
  failed_props_typed q = true ->
  Forall (fun kv => is_flat_value kv.2 = true) q /\
  "latencyMs" ∈ obj_keys q /\ "error" ∈ obj_keys q /\
  (forall k, k ∈ obj_keys q -> k ∈ ["latencyMs"; "error"]).
Proof.
  unfold failed_props_typed. intros H. repeat rewrite andb_true_iff in H.
  destruct H as [[Hl He] Hall].
  split; [|split; [|split]].
  - apply Forall_forall. intros [k v] Hin. apply list_elem_of_In in Hin.
    rewrite forallb_forall in Hall.
    specialize (Hall (k, v) Hin). simpl in *.
    destruct (String.eqb k "latencyMs"); [destruct v; simpl in *; congruence|].
    destruct (String.eqb k "error"); [destruct v; simpl in *; congruence|discriminate].
  - apply obj_get_in_keys. destruct (obj_get q "latencyMs"); simpl in *; congruence.
  - apply obj_get_in_keys. destruct (obj_get q "error"); simpl in *; congruence.
  - intros k Hk. destruct (forallb_keys _ q k Hall Hk) as [v Hv]; simpl in Hv.
    destruct (String.eqb_spec k "latencyMs") as [->|]; [set_solver|].
    destruct (String.eqb_spec k "error") as [->|]; [set_solver|].
    discriminate.
Qed.

Lemma llm_object_keys (q cx : jsobj) (k : string) :
  k ∈ obj_keys (obj_define_all (obj_spread [] q) (context_fields cx)) <->
  k ∈ obj_keys q \/ k ∈ ["modelId"; "provider"; "usedFim"].
Proof.
  unfold obj_spread. rewrite !obj_keys_define_all_elem.
  unfold obj_keys at 1. simpl. rewrite elem_of_nil. tauto.
Qed.

Lemma call_object_shape (h : heap) (c : call) :
  call_typed h c = true ->
  Forall (fun kv => is_flat_value kv.2 = true) (call_object h c) /\
  (forall k, k ∈ required_keys c -> k ∈ obj_keys (call_object h c)) /\
  (forall k, k ∈ obj_keys (call_object h c) -> k ∈ required_keys c ++ optional_keys c).
Proof.
  destruct c as [ctx n|p ctx|p ctx|ctx n|r ctx|n|r]; intros Ht; cbn [call_typed] in Ht.
  - simpl. apply context_typed_fields in Ht as (H1 & H2 & H3 & H4 & H5).
    split; [repeat constructor; assumption|].
    split; intros k Hk; [exact Hk|rewrite ?app_nil_r; exact Hk].
  - cbn [call_object required_keys optional_keys app].
    apply andb_true_iff in Ht as [Hq Hc].
    destruct (completed_props_flat _ Hq) as (Hf & Hl & Hks).
    split; [|split].
    + apply obj_define_all_Forall; [|apply context_fields_flat, Hc].
      apply obj_define_all_Forall; [constructor|exact Hf].
    + intros k Hk. apply llm_object_keys.
      rewrite !elem_of_cons, elem_of_nil in Hk.
      destruct Hk as [->|Hk]; [left; exact Hl|right; set_solver].
    + intros k Hk. apply llm_object_keys in Hk as [Hk|Hk];
        [apply Hks in Hk|]; set_solver.
  - cbn [call_object required_keys optional_keys app].
    apply andb_true_iff in Ht as [Hq Hc].
    destruct (failed_props_flat _ Hq) as (Hf & Hl & He & Hks).
    split; [|split].
    + apply obj_define_all_Forall; [|apply context_fields_flat, Hc].
      apply obj_define_all_Forall; [constructor|exact Hf].
    + intros k Hk. apply llm_object_keys.
      rewrite !elem_of_cons, elem_of_nil in Hk.
      destruct Hk as [->|[->|Hk]]; [left; exact Hl|left; exact He|right; set_solver].
    + intros k Hk. apply llm_object_keys in Hk as [Hk|Hk];
        [apply Hks in Hk|]; set_solver.
  - simpl. apply context_typed_fields in Ht as (H1 & H2 & H3 & _).
    split; [repeat constructor; assumption|].
    split; intros k Hk; [exact Hk|rewrite ?app_nil_r; exact Hk].
  - simpl. apply context_typed_fields in Ht as (H1 & H2 & H3 & _).
    split; [repeat constructor; assumption|].
    split; intros k Hk; [exact Hk|rewrite ?app_nil_r; exact Hk].
  - simpl. split; [repeat constructor|].
    split; intros k Hk; [exact Hk|rewrite ?app_nil_r; exact Hk].
  - simpl. split; [repeat constructor|].
    split; intros k Hk; [exact Hk|rewrite ?app_nil_r; exact Hk].
Qed.

Lemma run_call_state (w : TelemetryService) (this : loc) (c : call) (h : heap)
    (tr : list effect) :
  exists tr' o,
    run_call this c w (mkSt h tr) =
      (mkSt (<[fresh (dom h) := call_object h c]> h) tr', o).
Proof.
  rewrite run_call_eq. simpl.
  destruct (hasInstance w); [destruct (instance_captureEvent w _ _)|]; eauto.
Qed.

Lemma run_calls_frame (w : TelemetryService) (this : loc) (cs : list call) :
  forall (h : heap) (tr : list effect) (l : loc), l ∈ dom h ->
  st_heap (fst (run_calls this cs w (mkSt h tr))) !! l = h !! l.
Proof.
  induction cs as [|c cs IH]; intros h tr l Hl; [reflexivity|].
  simpl. unfold bind.
  destruct (run_call_state w this c h tr) as [tr' [o ->]].
  assert (Hne : fresh (dom h) <> l).
  { intros E. apply (fresh_not_in_dom h l Hl). symmetry. exact E. }
  destruct o as [[]|e]; simpl.
  - rewrite IH.
    + apply lookup_insert_ne, Hne.
    + rewrite dom_insert_L. set_solver.
  - apply lookup_insert_ne, Hne.
Qed.

Lemma call_object_reads (h1 h2 : heap) (c : call) :
  Forall (fun l => h1 !! l = h2 !! l) (call_reads c) ->
  call_object h1 c = call_object h2 c.
Proof.
  intros H. unfold heap_read.
  destruct c; simpl in H; repeat match goal with
  | H : Forall _ (_ :: _) |- _ => apply Forall_cons in H as [? H]
  end; simpl; unfold heap_read; repeat match goal with
  | E : h1 !! _ = h2 !! _ |- _ => rewrite E; clear E
  end; reflexivity.
Qed.


Lemma obj_keys_set (o : jsobj) (k : string) (v : jsval) :
  obj_keys (obj_set o k v) =
  obj_keys o ++ (if decide (k ∈ obj_keys o) then [] else [k]).
Proof.
  induction o as [|[k0 v0] o IH].
  - destruct (decide (k ∈ obj_keys [])) as [Hin|]; [|reflexivity].
    unfold obj_keys in Hin; simpl in Hin. set_solver.
  - cbn [obj_set]. destruct (String.eqb_spec k k0) as [->|Hne].
    + rewrite decide_True by (unfold obj_keys; simpl; set_solver).
      unfold obj_keys; simpl. rewrite app_nil_r. reflexivity.
    + unfold obj_keys in *; cbn [map fst] in *. rewrite IH. simpl. f_equal.
      destruct (decide (k ∈ map fst o)) as [Hin|Hnin].
      * rewrite decide_True by set_solver. reflexivity.
      * rewrite decide_False; [reflexivity|]. rewrite elem_of_cons. tauto.
Qed.

Lemma filter_in_ext (P1 P2 : string -> Prop)
    `{!forall x, Decision (P1 x), !forall x, Decision (P2 x)} (l : list string) :
  (forall x, x ∈ l -> P1 x <-> P2 x) -> filter P1 l = filter P2 l.
Proof.
  induction l as [|x l IH]; intros Hext; [reflexivity|].
  rewrite !filter_cons.
  rewrite IH by (intros y Hy; apply Hext; set_solver).
  assert (Hx : P1 x <-> P2 x) by (apply Hext; set_solver).
  destruct (decide (P1 x)) as [H1|H1], (decide (P2 x)) as [H2|H2];
    try reflexivity; exfalso; tauto.
Qed.

Lemma obj_keys_define_all (o : jsobj) (ps : list (string * jsval)) :
  NoDup (map fst ps) ->
  obj_keys (obj_define_all o ps) =
  obj_keys o ++ filter (fun k => k ∉ obj_keys o) (map fst ps).
Proof.
  revert o; induction ps as [|[k v] ps IH]; simpl; intros o Hnd.
  - rewrite app_nil_r. reflexivity.
  - apply NoDup_cons in Hnd as [Hk Hnd].
    rewrite IH by exact Hnd.
    assert (Hf : filter (fun k' => k' ∉ obj_keys (obj_set o k v)) (map fst ps) =
                 filter (fun k' => k' ∉ obj_keys o) (map fst ps)).
    { apply filter_in_ext. intros k' Hk'.
      rewrite obj_keys_set_elem. assert (k' <> k) by (intros ->; contradiction).
      tauto. }
    rewrite Hf, obj_keys_set, filter_cons.
    destruct (decide (k ∈ obj_keys o)) as [Hin|Hnin].
    + rewrite decide_False by tauto. rewrite app_nil_r. reflexivity.
    + rewrite decide_True by exact Hnin. rewrite <- app_assoc. reflexivity.
Qed.

Lemma filter_not_in_nil (l : list string) :
  filter (fun k => k ∉ obj_keys []) l = l.
Proof.
  induction l as [|x l IH]; [reflexivity|].
  rewrite filter_cons, decide_True by (unfold obj_keys; simpl; set_solver).
  rewrite IH. reflexivity.
Qed.

Lemma FilterReason_str_inj (r1 r2 : FilterReason) :
  FilterReason_str r1 = FilterReason_str r2 -> r1 = r2.
Proof. destruct r1, r2; simpl; congruence. Qed.

Lemma DismissReason_str_inj (r1 r2 : DismissReason) :
  DismissReason_str r1 = DismissReason_str r2 -> r1 = r2.
Proof. destruct r1, r2; simpl; congruence. Qed.

Lemma call_object_alloc (h : heap) (o : jsobj) (c : call) :
  Forall (fun l => l ∈ dom h) (call_reads c) ->
  call_object (<[fresh (dom h) := o]> h) c = call_object h c.
Proof.
  intros H. apply call_object_reads. eapply Forall_impl; [exact H|].
  intros l Hl. apply lookup_insert_ne. intros E.
  apply (fresh_not_in_dom h l Hl). symmetry. exact E.
Qed.

(** ** Claims *)

(** C1: for each of the seven public capture operations and every input,
    when the sink exists, the sink's [captureEvent] is called exactly once,
    with the operation's documented event name and a mapping whose keys are
    exactly the documented ones, each holding the caller's value or the
    value copied from the context (for the LLM operations: the caller's
    properties merged with the context's [modelId], [provider], [usedFim]). *)
Theorem capture_forwards_documented (w : TelemetryService) (this : loc)
    (c : call) (h : heap) (tr : list effect) :
  hasInstance w = true -> wf_heap h ->
  exists m rest,
    st_trace (fst (run_call this c w (mkSt h tr))) =
      tr ++ SinkCaptureEvent (documented_event c) (Some m) :: rest /\
    Forall (fun e => is_sink_event e = false) rest /\
    NoDup (obj_keys m) /\
    (forall k, obj_lookup m k = documented_lookup h c k).
Proof.
  intros Hw Hwf.
  destruct (run_call_forwards w this c h tr Hw) as [rest [Htr Hrest]].
  destruct (call_object_documented h c Hwf) as [Hnd Hlk].
  exists (call_object h c), rest. rewrite documented_event_eq.
  repeat split; assumption.
Qed.

Lemma capture_forwards_documented_witness :
  hasInstance test_service = true /\ wf_heap test_heap /\
  exists m rest,
    st_trace (fst (run_call 0%N (CLlmRequestCompleted 2%N 1%N) test_service
                    (mkSt test_heap []))) =
      [] ++ SinkCaptureEvent (documented_event (CLlmRequestCompleted 2%N 1%N)) (Some m)
         :: rest /\
    Forall (fun e => is_sink_event e = false) rest /\
    NoDup (obj_keys m) /\
    (forall k, obj_lookup m k = documented_lookup test_heap (CLlmRequestCompleted 2%N 1%N) k).
Proof.
  assert (Hw : hasInstance test_service = true) by reflexivity.
  assert (Hwf : wf_heap test_heap) by (apply (bool_decide_unpack _); vm_compute; reflexivity).
  split; [exact Hw|split; [exact Hwf|]].
  exact (capture_forwards_documented test_service 0%N (CLlmRequestCompleted 2%N 1%N)
           test_heap [] Hw Hwf).
Defined.

(** C2: when no telemetry instance exists, every public capture operation
    returns normally, the sink is never called and nothing is logged (the
    trace is unchanged); the heap only gains the fresh, unreferenced
    property object. *)
Theorem capture_without_sink_is_noop (w : TelemetryService) (this : loc)
    (c : call) (h : heap) (tr : list effect) :
  hasInstance w = false ->
  exists h',
    run_call this c w (mkSt h tr) = (mkSt h' tr, Normal tt) /\
    (forall l, l ∈ dom h -> h' !! l = h !! l).
Proof.
  intros Hw. rewrite run_call_eq, Hw.
  eexists. split; [reflexivity|].
  intros l Hl. rewrite lookup_insert_ne; [reflexivity|].
  intros E. apply (fresh_not_in_dom h l Hl). symmetry. exact E.
Qed.

Lemma capture_without_sink_is_noop_witness :
  hasInstance no_service = false /\
  exists h',
    run_call 0%N (CSuggestionRequested 1%N 10) no_service (mkSt test_heap []) =
      (mkSt h' [], Normal tt) /\
    (forall l, l ∈ dom test_heap -> h' !! l = test_heap !! l).
Proof.
  assert (Hw : hasInstance no_service = false) by reflexivity.
  split; [exact Hw|].
  exact (capture_without_sink_is_noop no_service 0%N (CSuggestionRequested 1%N 10)
           test_heap [] Hw).
Defined.

(** C3 (counterexample): when the sink exists and its [captureEvent]
    throws, the dispatch routine throws. *)
Lemma captureEvent_propagates_sink_exception :
  snd (captureEvent 0%N CHAT_AUTOCOMPLETE_SUGGESTION_DISMISSED (Some 4%N)
         throwing_service (mkSt test_heap [])) = Throw (JStr "sink failure").
Proof. reflexivity. Qed.

(** C3 (amended): the dispatch routine throws only by propagating an
    exception of the sink's [captureEvent]: with no instance, or when the
    sink returns normally, it returns normally; otherwise it rethrows the
    sink's exception unchanged, and the diagnostic log line is then skipped
    (the trace ends with the sink call). *)
Theorem captureEvent_throws_only_from_sink (w : TelemetryService) (this : loc)
    (event : TelemetryEventName) (properties : option loc) (h : heap)
    (tr : list effect) :
  let p := option_map (heap_read h) properties in
  (snd (captureEvent this event properties w (mkSt h tr)) =
   if hasInstance w then
     match instance_captureEvent w event p with
     | None => Normal tt
     | Some e => Throw e
     end
   else Normal tt) /\
  (st_trace (fst (captureEvent this event properties w (mkSt h tr))) =
   if hasInstance w then
     match instance_captureEvent w event p with
     | None => tr ++ [SinkCaptureEvent event p; ConsoleLog log_template event p]
     | Some _ => tr ++ [SinkCaptureEvent event p]
     end
   else tr).
Proof.
  simpl. rewrite captureEvent_eq. simpl.
  destruct (hasInstance w); [|split; reflexivity].
  destruct (instance_captureEvent w _ _); split; reflexivity.
Qed.

(** C8: one [console.log] line per forwarded event: with no instance the
    trace is unchanged; with an instance, the sink call is followed by
    exactly one log line ["Chat Autocomplete Telemetry event: " + event],
    carrying the mapping when one was passed, unless the sink threw, in
    which case nothing is logged.  Stated for the dispatch routine with or
    without properties, and for each public operation. *)
Theorem capture_logs_once_per_forward :
  (forall (w : TelemetryService) (this : loc) (event : TelemetryEventName)
          (properties : option loc) (h : heap) (tr : list effect),
     let p := option_map (heap_read h) properties in
     let tr' := st_trace (fst (captureEvent this event properties w (mkSt h tr))) in
     tr' = if hasInstance w then
             match instance_captureEvent w event p with
             | None => tr ++ [SinkCaptureEvent event p; ConsoleLog log_template event p]
             | Some _ => tr ++ [SinkCaptureEvent event p]
             end
           else tr) /\
  (forall (w : TelemetryService) (this : loc) (c : call) (h : heap)
          (tr : list effect),
     let tr' := st_trace (fst (run_call this c w (mkSt h tr))) in
     match hasInstance w with
     | false => tr' = tr
     | true =>
         exists m,
           (instance_captureEvent w (documented_event c) (Some m) = None /\
            tr' = tr ++ [SinkCaptureEvent (documented_event c) (Some m);
                         ConsoleLog log_template (documented_event c) (Some m)]) \/
           (instance_captureEvent w (documented_event c) (Some m) <> None /\
            tr' = tr ++ [SinkCaptureEvent (documented_event c) (Some m)])
     end).
Proof.
  split.
  - intros w this event properties h tr. simpl.
    rewrite captureEvent_eq. simpl.
    destruct (hasInstance w); [|reflexivity].
    destruct (instance_captureEvent w _ _); reflexivity.
  - intros w this c h tr. simpl.
    rewrite run_call_eq, documented_event_eq.
    destruct (hasInstance w); [|reflexivity].
    exists (call_object h c).
    destruct (instance_captureEvent w _ _) eqn:E; simpl.
    + right. split; [congruence|reflexivity].
    + left. split; reflexivity.
Qed.

(** C4: [captureLlmRequestCompleted] with a properties record holding only
    [latencyMs] forwards a mapping whose keys are exactly [latencyMs],
    [modelId], [provider], [usedFim], whatever the context: no
    [inputTokens] or [outputTokens] key appears. *)
Theorem llm_completed_latency_only_keys (w : TelemetryService) (this : loc)
    (properties context : loc) (h : heap) (tr : list effect) (latencyMs : Z) :
  hasInstance w = true ->
  heap_read h properties = [("latencyMs", JNum latencyMs)] ->
  exists m rest,
    st_trace (fst (run_call this (CLlmRequestCompleted properties context) w
                    (mkSt h tr))) =
      tr ++ SinkCaptureEvent CHAT_AUTOCOMPLETE_LLM_REQUEST_COMPLETED (Some m) :: rest /\
    obj_keys m = ["latencyMs"; "modelId"; "provider"; "usedFim"].
Proof.
  intros Hw Hp.
  destruct (run_call_forwards w this (CLlmRequestCompleted properties context) h tr Hw)
    as [rest [Htr _]].
  exists (call_object h (CLlmRequestCompleted properties context)), rest.
  split; [exact Htr|]. simpl. rewrite Hp. reflexivity.
Qed.

Lemma llm_completed_latency_only_keys_witness :
  hasInstance test_service = true /\
  heap_read test_heap 2%N = [("latencyMs", JNum 150)] /\
  exists m rest,
    st_trace (fst (run_call 0%N (CLlmRequestCompleted 2%N 3%N) test_service
                    (mkSt test_heap []))) =
      [] ++ SinkCaptureEvent CHAT_AUTOCOMPLETE_LLM_REQUEST_COMPLETED (Some m) :: rest /\
    obj_keys m = ["latencyMs"; "modelId"; "provider"; "usedFim"].
Proof.
  assert (Hw : hasInstance test_service = true) by reflexivity.
  assert (Hp : heap_read test_heap 2%N = [("latencyMs", JNum 150)]) by reflexivity.
  split; [exact Hw|split; [exact Hp|]].
  exact (llm_completed_latency_only_keys test_service 0%N 2%N 3%N test_heap [] 150 Hw Hp).
Defined.

(** C5: every operation that copies context fields forwards [modelId] and
    [provider] even when the context leaves them undefined: the key is
    present and holds [undefined]. *)
Theorem undefined_context_fields_passed_through (w : TelemetryService)
    (this : loc) (c : call) (context : loc) (f : string) (h : heap)
    (tr : list effect) :
  hasInstance w = true -> call_context c = Some context ->
  f ∈ ["modelId"; "provider"] ->
  obj_get (heap_read h context) f = JUndef ->
  exists m rest,
    st_trace (fst (run_call this c w (mkSt h tr))) =
      tr ++ SinkCaptureEvent (call_event c) (Some m) :: rest /\
    f ∈ obj_keys m /\ obj_lookup m f = Some JUndef.
Proof.
  intros Hw Hc Hf Hu.
  destruct (run_call_forwards w this c h tr Hw) as [rest [Htr _]].
  exists (call_object h c), rest. split; [exact Htr|].
  assert (Hl : obj_lookup (call_object h c) f = Some JUndef).
  { rewrite (call_object_context_field h c context f Hc); [rewrite Hu; reflexivity|].
    set_solver. }
  split; [|exact Hl].
  destruct (decide (f ∈ obj_keys (call_object h c))) as [Hin|Hnin]; [exact Hin|].
  apply obj_lookup_None in Hnin. congruence.
Qed.

Lemma undefined_context_fields_passed_through_witness :
  hasInstance test_service = true /\
  call_context (CSuggestionRequested 3%N 5) = Some 3%N /\
  "modelId" ∈ ["modelId"; "provider"] /\
  obj_get (heap_read test_heap 3%N) "modelId" = JUndef /\
  exists m rest,
    st_trace (fst (run_call 0%N (CSuggestionRequested 3%N 5) test_service
                    (mkSt test_heap []))) =
      [] ++ SinkCaptureEvent (call_event (CSuggestionRequested 3%N 5)) (Some m) :: rest /\
    "modelId" ∈ obj_keys m /\ obj_lookup m "modelId" = Some JUndef.
Proof.
  assert (Hw : hasInstance test_service = true) by reflexivity.
  assert (Hc : call_context (CSuggestionRequested 3%N 5) = Some 3%N) by reflexivity.
  assert (Hf : "modelId" ∈ ["modelId"; "provider"]) by (left; reflexivity).
  assert (Hu : obj_get (heap_read test_heap 3%N) "modelId" = JUndef) by reflexivity.
  split; [exact Hw|split; [exact Hc|split; [exact Hf|split; [exact Hu|]]]].
  exact (undefined_context_fields_passed_through test_service 0%N
           (CSuggestionRequested 3%N 5) 3%N "modelId" test_heap [] Hw Hc Hf Hu).
Defined.

(** C6: [captureSuggestionAccepted] and [captureSuggestionDismissed] never
    forward [modelId], [provider] or [usedFim]; in particular
    [captureSuggestionDismissed("timeout")] forwards exactly
    [{ dismissReason: "timeout" }]. *)
Theorem accepted_dismissed_without_context (w : TelemetryService) (this : loc)
    (suggestionLength : Z) (dismissReason : DismissReason) (h : heap)
    (tr : list effect) :
  hasInstance w = true ->
  (forall c, c = CSuggestionAccepted suggestionLength \/
             c = CSuggestionDismissed dismissReason ->
   exists m rest,
     st_trace (fst (run_call this c w (mkSt h tr))) =
       tr ++ SinkCaptureEvent (call_event c) (Some m) :: rest /\
     (forall f, f ∈ ["modelId"; "provider"; "usedFim"] ->
        (f ∉ obj_keys m) /\ obj_lookup m f = None)) /\
  exists rest,
    st_trace (fst (run_call this (CSuggestionDismissed timeout) w (mkSt h tr))) =
      tr ++ SinkCaptureEvent CHAT_AUTOCOMPLETE_SUGGESTION_DISMISSED
             (Some [("dismissReason", JStr "timeout")]) :: rest.
Proof.
  intros Hw. split.
  - intros c Hc.
    destruct (run_call_forwards w this c h tr Hw) as [rest [Htr _]].
    exists (call_object h c), rest. split; [exact Htr|].
    intros f Hf. rewrite !elem_of_cons, elem_of_nil in Hf.
    destruct Hc as [->| ->]; simpl;
      (split; [unfold obj_keys; simpl; set_solver|]);
      destruct Hf as [->|[->|[->|[]]]]; reflexivity.
  - destruct (run_call_forwards w this (CSuggestionDismissed timeout) h tr Hw)
      as [rest [Htr _]].
    exists rest. exact Htr.
Qed.

Lemma accepted_dismissed_without_context_witness :
  hasInstance test_service = true /\
  exists rest,
    st_trace (fst (run_call 0%N (CSuggestionDismissed timeout) test_service
                    (mkSt test_heap []))) =
      [] ++ SinkCaptureEvent CHAT_AUTOCOMPLETE_SUGGESTION_DISMISSED
             (Some [("dismissReason", JStr "timeout")]) :: rest.
Proof.
  assert (Hw : hasInstance test_service = true) by reflexivity.
  split; [exact Hw|].
  exact (proj2 (accepted_dismissed_without_context test_service 0%N 30 timeout
                  test_heap [] Hw)).
Defined.

(** C7 (counterexample): with the test suite's [minimalContext] (no
    [modelId], no [provider]), [captureSuggestionRequested] forwards a
    mapping holding [undefined], which is not a string, number or
    boolean. *)
Lemma forwarded_mapping_holds_undefined :
  exists m rest,
    st_trace (fst (run_call 0%N (CSuggestionRequested 3%N 5) test_service
                    (mkSt test_heap []))) =
      SinkCaptureEvent CHAT_AUTOCOMPLETE_SUGGESTION_REQUESTED (Some m) :: rest /\
    obj_lookup m "modelId" = Some JUndef /\ is_scalar JUndef = false.
Proof.
  eexists; eexists. split; [vm_compute; reflexivity|].
  split; reflexivity.
Qed.

(** C7 (amended): when the context fields have their declared types and
    the LLM operations' properties record carries only its declared keys
    with their declared types, every forwarded value is a string, number,
    boolean or [undefined] (never an object), and the key set of each
    operation is fixed up to the optional [inputTokens]/[outputTokens]. *)
Theorem forwarded_mapping_flat_fixed_keys (w : TelemetryService) (this : loc)
    (c : call) (h : heap) (tr : list effect) :
  hasInstance w = true -> call_typed h c = true ->
  exists m rest,
    st_trace (fst (run_call this c w (mkSt h tr))) =
      tr ++ SinkCaptureEvent (call_event c) (Some m) :: rest /\
    Forall (fun kv => is_flat_value kv.2 = true) m /\
    (forall k, k ∈ required_keys c -> k ∈ obj_keys m) /\
    (forall k, k ∈ obj_keys m -> k ∈ required_keys c ++ optional_keys c).
Proof.
  intros Hw Ht.
  destruct (run_call_forwards w this c h tr Hw) as [rest [Htr _]].
  exists (call_object h c), rest. split; [exact Htr|].
  apply call_object_shape, Ht.
Qed.

Lemma forwarded_mapping_flat_fixed_keys_witness :
  hasInstance test_service = true /\
  call_typed test_heap (CLlmRequestFailed 4%N 3%N) = true /\
  exists m rest,
    st_trace (fst (run_call 0%N (CLlmRequestFailed 4%N 3%N) test_service
                    (mkSt test_heap []))) =
      [] ++ SinkCaptureEvent (call_event (CLlmRequestFailed 4%N 3%N)) (Some m) :: rest /\
    Forall (fun kv => is_flat_value kv.2 = true) m /\
    (forall k, k ∈ required_keys (CLlmRequestFailed 4%N 3%N) -> k ∈ obj_keys m) /\
    (forall k, k ∈ obj_keys m ->
       k ∈ required_keys (CLlmRequestFailed 4%N 3%N) ++ optional_keys (CLlmRequestFailed 4%N 3%N)).
Proof.
  assert (Hw : hasInstance test_service = true) by reflexivity.
  assert (Ht : call_typed test_heap (CLlmRequestFailed 4%N 3%N) = true) by reflexivity.
  split; [exact Hw|split; [exact Ht|]].
  exact (forwarded_mapping_flat_fixed_keys test_service 0%N (CLlmRequestFailed 4%N 3%N)
           test_heap [] Hw Ht).
Defined.

(** C9: the capture operations only read the caller's context and
    properties record: over any sequence of calls, every object that
    existed before (the reporter itself, which has no fields, and every
    context) is unchanged afterwards, the only heap change being fresh
    property objects; and a call's outcome and forwarded effects depend only
    on its arguments, the objects it reads and the sink, so two calls with
    the same arguments and sink, on heaps agreeing on what the call reads,
    append the same effects. *)
Theorem capture_reads_only_and_is_deterministic (w : TelemetryService)
    (this : loc) (cs : list call) (h : heap) (tr : list effect)
    (c : call) (h1 h2 : heap) (tr1 tr2 : list effect) :
  Forall (fun l => h1 !! l = h2 !! l) (call_reads c) ->
  (forall l, l ∈ dom h ->
     st_heap (fst (run_calls this cs w (mkSt h tr))) !! l = h !! l) /\
  snd (run_call this c w (mkSt h1 tr1)) = snd (run_call this c w (mkSt h2 tr2)) /\
  (exists d,
     st_trace (fst (run_call this c w (mkSt h1 tr1))) = tr1 ++ d /\
     st_trace (fst (run_call this c w (mkSt h2 tr2))) = tr2 ++ d).
Proof.
  intros Hagree. split; [intros l; apply run_calls_frame|].
  rewrite !run_call_eq, (call_object_reads h1 h2 c Hagree). simpl.
  destruct (hasInstance w); [destruct (instance_captureEvent w _ _)|];
    simpl; (split; [reflexivity|]); eauto using app_nil_r.
Qed.

Lemma capture_reads_only_and_is_deterministic_witness :
  Forall (fun l => test_heap !! l = other_heap !! l)
    (call_reads (CLlmRequestCompleted 2%N 1%N)) /\
  (forall l, l ∈ dom test_heap ->
     st_heap (fst (run_calls 0%N [CSuggestionRequested 1%N 42; CSuggestionAccepted 30]
                     test_service (mkSt test_heap []))) !! l = test_heap !! l) /\
  snd (run_call 0%N (CLlmRequestCompleted 2%N 1%N) test_service (mkSt test_heap [])) =
  snd (run_call 0%N (CLlmRequestCompleted 2%N 1%N) test_service (mkSt other_heap [])) /\
  (exists d,
     st_trace (fst (run_call 0%N (CLlmRequestCompleted 2%N 1%N) test_service
                      (mkSt test_heap []))) = [] ++ d /\
     st_trace (fst (run_call 0%N (CLlmRequestCompleted 2%N 1%N) test_service
                      (mkSt other_heap []))) = [] ++ d).
Proof.
  assert (Ha : Forall (fun l => test_heap !! l = other_heap !! l)
                 (call_reads (CLlmRequestCompleted 2%N 1%N)))
    by (apply (bool_decide_unpack _); vm_compute; reflexivity).
  split; [exact Ha|].
  exact (capture_reads_only_and_is_deterministic test_service 0%N
           [CSuggestionRequested 1%N 42; CSuggestionAccepted 30] test_heap []
           (CLlmRequestCompleted 2%N 1%N) test_heap other_heap [] [] Ha).
Defined.

(** C10: in the two LLM operations the context's [modelId], [provider] and
    [usedFim] are written after the spread of the caller's record, so they
    win over keys of the same name that the record carries at run time. *)
Theorem llm_context_overrides_properties (w : TelemetryService) (this : loc)
    (c : call) (properties context : loc) (h : heap) (tr : list effect) :
  hasInstance w = true ->
  c = CLlmRequestCompleted properties context \/
  c = CLlmRequestFailed properties context ->
  exists m rest,
    st_trace (fst (run_call this c w (mkSt h tr))) =
      tr ++ SinkCaptureEvent (call_event c) (Some m) :: rest /\
    (forall f, f ∈ ["modelId"; "provider"; "usedFim"] ->
       obj_lookup m f = Some (obj_get (heap_read h context) f)).
Proof.
  intros Hw Hc.
  destruct (run_call_forwards w this c h tr Hw) as [rest [Htr _]].
  exists (call_object h c), rest. split; [exact Htr|].
  intros f Hf. apply call_object_context_field; [|exact Hf].
  destruct Hc as [-> | ->]; reflexivity.
Qed.

Lemma llm_context_overrides_properties_witness :
  hasInstance test_service = true /\
  (CLlmRequestCompleted 5%N 1%N = CLlmRequestCompleted 5%N 1%N \/
   CLlmRequestCompleted 5%N 1%N = CLlmRequestFailed 5%N 1%N) /\
  exists m rest,
    st_trace (fst (run_call 0%N (CLlmRequestCompleted 5%N 1%N) test_service
                    (mkSt test_heap []))) =
      [] ++ SinkCaptureEvent (call_event (CLlmRequestCompleted 5%N 1%N)) (Some m) :: rest /\
    (forall f, f ∈ ["modelId"; "provider"; "usedFim"] ->
       obj_lookup m f = Some (obj_get (heap_read test_heap 1%N) f)).
Proof.
  assert (Hw : hasInstance test_service = true) by reflexivity.
  assert (Hc : CLlmRequestCompleted 5%N 1%N = CLlmRequestCompleted 5%N 1%N \/
               CLlmRequestCompleted 5%N 1%N = CLlmRequestFailed 5%N 1%N)
    by (left; reflexivity).
  split; [exact Hw|split; [exact Hc|]].
  exact (llm_context_overrides_properties test_service 0%N
           (CLlmRequestCompleted 5%N 1%N) 5%N 1%N test_heap [] Hw Hc).
Defined.

(** ** Further properties of the code *)

(** X1: the mapping of the two LLM operations lists the caller's keys in
    their order, then those of [modelId], [provider], [usedFim] the record
    lacks, in that order; a key the record already has keeps its place and
    holds the context's value. *)
Theorem llm_mapping_key_order (w : TelemetryService) (this : loc) (c : call)
    (properties context : loc) (h : heap) (tr : list effect) :
  hasInstance w = true ->
  c = CLlmRequestCompleted properties context \/
  c = CLlmRequestFailed properties context ->
  NoDup (obj_keys (heap_read h properties)) ->
  exists m rest,
    st_trace (fst (run_call this c w (mkSt h tr))) =
      tr ++ SinkCaptureEvent (call_event c) (Some m) :: rest /\
    obj_keys m =
      obj_keys (heap_read h properties) ++
      filter (fun k => k ∉ obj_keys (heap_read h properties))
        ["modelId"; "provider"; "usedFim"] /\
    (forall f, f ∈ ["modelId"; "provider"; "usedFim"] ->
       obj_lookup m f = Some (obj_get (heap_read h context) f)).
Proof.
  intros Hw Hc Hnd.
  destruct (run_call_forwards w this c h tr Hw) as [rest [Htr _]].
  exists (call_object h c), rest. split; [exact Htr|].
  split; [|intros f Hf; apply call_object_context_field; [|exact Hf];
           destruct Hc as [-> | ->]; reflexivity].
  assert (Hsp : obj_keys (obj_spread [] (heap_read h properties)) =
                obj_keys (heap_read h properties)).
  { unfold obj_spread. rewrite obj_keys_define_all by exact Hnd.
    rewrite filter_not_in_nil. reflexivity. }
  destruct Hc as [-> | ->]; cbn [call_object];
    (rewrite obj_keys_define_all by (simpl; repeat constructor; set_solver));
    rewrite Hsp; reflexivity.
Qed.

Lemma llm_mapping_key_order_witness :
  hasInstance test_service = true /\
  (CLlmRequestCompleted 5%N 1%N = CLlmRequestCompleted 5%N 1%N \/
   CLlmRequestCompleted 5%N 1%N = CLlmRequestFailed 5%N 1%N) /\
  NoDup (obj_keys (heap_read test_heap 5%N)) /\
  exists m rest,
    st_trace (fst (run_call 0%N (CLlmRequestCompleted 5%N 1%N) test_service
                    (mkSt test_heap []))) =
      [] ++ SinkCaptureEvent (call_event (CLlmRequestCompleted 5%N 1%N)) (Some m) :: rest /\
    obj_keys m =
      obj_keys (heap_read test_heap 5%N) ++
      filter (fun k => k ∉ obj_keys (heap_read test_heap 5%N))
        ["modelId"; "provider"; "usedFim"] /\
    (forall f, f ∈ ["modelId"; "provider"; "usedFim"] ->
       obj_lookup m f = Some (obj_get (heap_read test_heap 1%N) f)).
Proof.
  assert (Hw : hasInstance test_service = true) by reflexivity.
  assert (Hc : CLlmRequestCompleted 5%N 1%N = CLlmRequestCompleted 5%N 1%N \/
               CLlmRequestCompleted 5%N 1%N = CLlmRequestFailed 5%N 1%N)
    by (left; reflexivity).
  assert (Hnd : NoDup (obj_keys (heap_read test_heap 5%N)))
    by (apply (bool_decide_unpack _); vm_compute; reflexivity).
  split; [exact Hw|split; [exact Hc|split; [exact Hnd|]]].
  exact (llm_mapping_key_order test_service 0%N (CLlmRequestCompleted 5%N 1%N)
           5%N 1%N test_heap [] Hw Hc Hnd).
Defined.

(** X2: a sequence of capture calls whose context and properties records
    already exist, made while the sink returns normally, returns normally
    and appends, call after call, the sink call and the log line of each
    call (nothing when no instance exists); earlier calls' fresh property
    objects never change what a later call forwards. *)
Theorem run_calls_trace (w : TelemetryService) (this : loc) (cs : list call)
    (h : heap) (tr : list effect) :
  (forall event p, instance_captureEvent w event p = None) ->
  Forall (fun c => Forall (fun l => l ∈ dom h) (call_reads c)) cs ->
  snd (run_calls this cs w (mkSt h tr)) = Normal tt /\
  st_trace (fst (run_calls this cs w (mkSt h tr))) =
    tr ++ concat (map (fun c =>
      if hasInstance w then
        [SinkCaptureEvent (call_event c) (Some (call_object h c));
         ConsoleLog log_template (call_event c) (Some (call_object h c))]
      else []) cs).
Proof.
  intros Hsink. revert h tr.
  induction cs as [|c cs IH]; intros h tr Hreads.
  - simpl. rewrite app_nil_r. split; reflexivity.
  - apply Forall_cons in Hreads as [Hc Hcs].
    set (h' := <[fresh (dom h) := call_object h c]> h).
    assert (Hcs' : Forall (fun c => Forall (fun l => l ∈ dom h') (call_reads c)) cs).
    { eapply Forall_impl; [exact Hcs|]. intros c' Hc'.
      eapply Forall_impl; [exact Hc'|]. intros l Hl.
      unfold h'. rewrite dom_insert_L. set_solver. }
    assert (Hmap : forall f : jsobj -> call -> list effect,
              map (fun c' => f (call_object h' c') c') cs =
              map (fun c' => f (call_object h c') c') cs).
    { intros f. apply map_ext_in. intros c' Hin.
      rewrite List.Forall_forall in Hcs.
      unfold h'. rewrite call_object_alloc by (apply Hcs, Hin). reflexivity. }
    simpl. unfold bind. rewrite run_call_eq. fold h'.
    destruct (hasInstance w) eqn:Hw; [rewrite Hsink|]; simpl.
    + destruct (IH h' (tr ++ [SinkCaptureEvent (call_event c) (Some (call_object h c));
                             ConsoleLog log_template (call_event c) (Some (call_object h c))])
                  Hcs') as [Ho Htr].
      split; [exact Ho|]. rewrite Htr.
      pose proof (Hmap (fun m c' =>
          [SinkCaptureEvent (call_event c') (Some m);
           ConsoleLog log_template (call_event c') (Some m)])) as Hm.
      simpl in Hm. rewrite Hm, <- app_assoc. reflexivity.
    + destruct (IH h' tr Hcs') as [Ho Htr].
      split; [exact Ho|]. rewrite Htr.
      reflexivity.
Qed.

Lemma run_calls_trace_witness :
  (forall event p, instance_captureEvent test_service event p = None) /\
  Forall (fun c => Forall (fun l => l ∈ dom test_heap) (call_reads c))
    [CSuggestionRequested 1%N 42; CLlmRequestCompleted 2%N 1%N;
     CSuggestionDismissed timeout] /\
  snd (run_calls 0%N [CSuggestionRequested 1%N 42; CLlmRequestCompleted 2%N 1%N;
                      CSuggestionDismissed timeout]
         test_service (mkSt test_heap [])) = Normal tt /\
  st_trace (fst (run_calls 0%N [CSuggestionRequested 1%N 42; CLlmRequestCompleted 2%N 1%N;
                                CSuggestionDismissed timeout]
                   test_service (mkSt test_heap []))) =
    [] ++ concat (map (fun c =>
      if hasInstance test_service then
        [SinkCaptureEvent (call_event c) (Some (call_object test_heap c));
         ConsoleLog log_template (call_event c) (Some (call_object test_heap c))]
      else []) [CSuggestionRequested 1%N 42; CLlmRequestCompleted 2%N 1%N;
                CSuggestionDismissed timeout]).
Proof.
  assert (Hs : forall event p, instance_captureEvent test_service event p = None)
    by reflexivity.
  assert (Hr : Forall (fun c => Forall (fun l => l ∈ dom test_heap) (call_reads c))
                 [CSuggestionRequested 1%N 42; CLlmRequestCompleted 2%N 1%N;
                  CSuggestionDismissed timeout])
    by (apply (bool_decide_unpack _); vm_compute; reflexivity).
  split; [exact Hs|split; [exact Hr|]].
  exact (run_calls_trace test_service 0%N _ test_heap [] Hs Hr).
Defined.

(** X3: the reason is what tells two filtered (or two dismissed) events
    apart: for the same context and sink, two calls append the same effects
    exactly when they were given the same reason. *)
Theorem reasons_distinguish_events (w : TelemetryService) (this : loc)
    (context : loc) (h : heap) (tr : list effect) :
  hasInstance w = true ->
  (forall r1 r2 : FilterReason,
     st_trace (fst (run_call this (CSuggestionFiltered r1 context) w (mkSt h tr))) =
     st_trace (fst (run_call this (CSuggestionFiltered r2 context) w (mkSt h tr)))
     <-> r1 = r2) /\
  (forall d1 d2 : DismissReason,
     st_trace (fst (run_call this (CSuggestionDismissed d1) w (mkSt h tr))) =
     st_trace (fst (run_call this (CSuggestionDismissed d2) w (mkSt h tr)))
     <-> d1 = d2).
Proof.
  intros Hw. split.
  - intros r1 r2. split; [|intros ->; reflexivity].
    rewrite !run_call_eq, Hw.
    destruct (instance_captureEvent w _ (Some (call_object h (CSuggestionFiltered r1 context)))),
             (instance_captureEvent w _ (Some (call_object h (CSuggestionFiltered r2 context))));
      simpl; intros E; apply app_inv_head in E; inversion E;
      apply FilterReason_str_inj; assumption.
  - intros d1 d2. split; [|intros ->; reflexivity].
    rewrite !run_call_eq, Hw.
    destruct (instance_captureEvent w _ (Some (call_object h (CSuggestionDismissed d1)))),
             (instance_captureEvent w _ (Some (call_object h (CSuggestionDismissed d2))));
      simpl; intros E; apply app_inv_head in E; inversion E;
      apply DismissReason_str_inj; assumption.
Qed.

Lemma reasons_distinguish_events_witness :
  hasInstance test_service = true /\
  (forall r1 r2 : FilterReason,
     st_trace (fst (run_call 0%N (CSuggestionFiltered r1 1%N) test_service (mkSt test_heap []))) =
     st_trace (fst (run_call 0%N (CSuggestionFiltered r2 1%N) test_service (mkSt test_heap [])))
     <-> r1 = r2) /\
  (forall d1 d2 : DismissReason,
     st_trace (fst (run_call 0%N (CSuggestionDismissed d1) test_service (mkSt test_heap []))) =
     st_trace (fst (run_call 0%N (CSuggestionDismissed d2) test_service (mkSt test_heap [])))
     <-> d1 = d2).
Proof.
  assert (Hw : hasInstance test_service = true) by reflexivity.
  split; [exact Hw|].
  exact (reasons_distinguish_events test_service 0%N 1%N test_heap [] Hw).
Defined.
